(** * blacklist_server: the HTTP handler and the periodic refresh loop of
      [server/server.py], embedded as Rocq functions.

    Layout:
    - [Py]        : the Python values the handlers compute with (parsed JSON,
                    dictionaries, truthiness, [int(...)], string splitting);
    - [Blacklist] : the ledger gateway imported from [blacklist.py];
    - [Server]    : [SimpleRESTHandler], [periodic_update], [signal_handler]
                    and an interleaving of requests, scheduler steps and time;
    - the properties of the specification, one theorem per claim. *)

From Stdlib Require Import ZArith List String Ascii Bool Lia.
Import ListNotations.
Open Scope string_scope.
Open Scope list_scope.
Open Scope Z_scope.
Set Warnings "-register-all".

(* ===================================================================== *)
(** ** Python values                                                      *)
(* ===================================================================== *)

Module Py.

(** A Python [str] is the Rocq string of its code points; this covers text
    within Latin-1 (below U+0100), which is how [http.server] decodes the
    request line and which [send_error] can always put into the status
    line. Python integers are unbounded ([Z]). *)

(** The exceptions that can arise on the modelled paths. *)
Inductive exn : Type :=
| JSONDecodeError                (* json.loads on text that is not JSON *)
| ValueError (msg : string)      (* raised by the handlers themselves *)
| InvalidLiteral                 (* ValueError of int() on a bad string or on NaN *)
| OverflowError                  (* int() on an infinite float *)
| TypeError                      (* int() on None/list/dict, hash() of list/dict *)
| AttributeError                 (* [.get] on a value that is not a dict *)
| KeyError                       (* [d[k]] on a missing key *)
| LedgerError.                   (* any exception raised by the ledger gateway *)

(** Outcome of a computation that may raise. *)
Inductive result (A : Type) : Type :=
| Ok (a : A)
| Raise (e : exn).
Arguments Ok {A} a.
Arguments Raise {A} e.

Definition bind {A B : Type} (r : result A) (k : A -> result B) : result B :=
  match r with
  | Ok a => k a
  | Raise e => Raise e
  end.

Notation "x <- r ;; k" := (bind r (fun x => k))
  (at level 61, r at next level, right associativity).

(** A Python float: not-a-number, an infinity, or the dyadic rational
    [m * 2^e]. *)
Inductive pyfloat : Type :=
| FNaN
| FInf (negative : bool)
| FFinite (m e : Z).

(** What [json.loads] returns. A JSON object becomes a [dict]; it is kept as
    the list of its bindings, looked up from the front. *)
Inductive json : Type :=
| JNull
| JBool (b : bool)
| JInt (z : Z)
| JFloat (f : pyfloat)
| JString (s : string)
| JArray (items : list json)
| JObject (fields : list (string * json)).

Definition dict : Type := list (string * json).

(** [k in d] *)
Fixpoint dict_contains (k : string) (d : dict) : bool :=
  match d with
  | [] => false
  | (k', _) :: d' => if String.eqb k k' then true else dict_contains k d'
  end.

(** [d.get(k)] as an option; [None] when the key is absent. *)
Fixpoint dict_lookup (k : string) (d : dict) : option json :=
  match d with
  | [] => None
  | (k', v) :: d' => if String.eqb k k' then Some v else dict_lookup k d'
  end.

(** [d[k]] *)
Definition dict_getitem (d : dict) (k : string) : result json :=
  match dict_lookup k d with
  | Some v => Ok v
  | None => Raise KeyError
  end.

(** [data.get(k, default)], where [data] is whatever [json.loads] returned:
    only a dict has a [get] attribute. *)
Definition get (data : json) (k : string) (default : json) : result json :=
  match data with
  | JObject d =>
      match dict_lookup k d with
      | Some v => Ok v
      | None => Ok default
      end
  | _ => Raise AttributeError
  end.

(** Truth value of a Python object, as tested by [not x]. *)
Definition truthy (v : json) : bool :=
  match v with
  | JNull => false
  | JBool b => b
  | JInt z => negb (z =? 0)
  | JFloat (FFinite m _) => negb (m =? 0)
  | JFloat _ => true
  | JString s => negb (String.eqb s "")
  | JArray l => match l with [] => false | _ => true end
  | JObject d => match d with [] => false | _ => true end
  end.

(** [hash(v)] succeeds: lists and dicts are unhashable. *)
Definition hashable (v : json) : bool :=
  match v with
  | JArray _ | JObject _ => false
  | _ => true
  end.

(** *** [int(...)] *)

(** Truncation of a finite float toward zero. *)
Definition float_trunc (m e : Z) : Z :=
  if 0 <=? e then m * 2 ^ e else Z.quot m (2 ^ (- e)).

(** White space skipped by [int] around the digits: the ASCII white space
    and the two Latin-1 spaces (NEL, NBSP). *)
Definition is_space (c : ascii) : bool :=
  let n := nat_of_ascii c in
  ((9 <=? n) && (n <=? 13) || (n =? 32) || (n =? 133) || (n =? 160))%nat.


Definition is_digit (c : ascii) : bool :=
  let n := nat_of_ascii c in ((48 <=? n) && (n <=? 57))%nat.

Definition digit_value (c : ascii) : Z := Z.of_nat (nat_of_ascii c) - 48.

Fixpoint lstrip_space (l : list ascii) : list ascii :=
  match l with
  | c :: l' => if is_space c then lstrip_space l' else l
  | [] => []
  end.

Definition strip_space (l : list ascii) : list ascii :=
  rev (lstrip_space (rev (lstrip_space l))).

(** Digits after a first digit: each further digit may be preceded by one
    underscore. *)
Fixpoint more_digits (l : list ascii) (acc : Z) : option Z :=
  match l with
  | [] => Some acc
  | c :: l' =>
      if is_digit c then more_digits l' (10 * acc + digit_value c)
      else if Ascii.eqb c "_"%char then
        match l' with
        | d :: l'' =>
            if is_digit d then more_digits l'' (10 * acc + digit_value d)
            else None
        | [] => None
        end
      else None
  end.

Definition decimal (l : list ascii) : option Z :=
  match l with
  | c :: l' => if is_digit c then more_digits l' (digit_value c) else None
  | [] => None
  end.

(** [sys.get_int_max_str_digits()], the default limit on the number of
    digits [int] converts. *)
Definition int_max_str_digits : nat := 4300.

Definition count_digits (l : list ascii) : nat :=
  List.length (filter is_digit l).

(** [int(s)]: surrounding white space, an optional sign, decimal digits.
    [None] stands for ValueError. *)
Definition int_of_string (s : string) : option Z :=
  let l := strip_space (list_ascii_of_string s) in
  if (int_max_str_digits <? count_digits l)%nat then None
  else
    match l with
    | "-"%char :: l' => option_map Z.opp (decimal l')
    | "+"%char :: l' => decimal l'
    | _ => decimal l
    end.

(** [int(v)] *)
Definition int (v : json) : result Z :=
  match v with
  | JInt z => Ok z
  | JBool b => Ok (if b then 1 else 0)
  | JFloat (FFinite m e) => Ok (float_trunc m e)
  | JFloat FNaN => Raise InvalidLiteral
  | JFloat (FInf _) => Raise OverflowError
  | JString s =>
      match int_of_string s with
      | Some z => Ok z
      | None => Raise InvalidLiteral
      end
  | JNull | JArray _ | JObject _ => Raise TypeError
  end.

(** *** [str.strip('/')], [str.split('/')] and the path of [urlparse] *)

Definition slash : ascii := "/"%char.

Fixpoint lstrip_char (c : ascii) (l : list ascii) : list ascii :=
  match l with
  | x :: l' => if Ascii.eqb x c then lstrip_char c l' else l
  | [] => []
  end.

Definition strip_char (c : ascii) (l : list ascii) : list ascii :=
  rev (lstrip_char c (rev (lstrip_char c l))).

(** [s.split(c)] with the current piece accumulated in reverse. *)
Fixpoint split_go (c : ascii) (cur : list ascii) (l : list ascii)
  : list (list ascii) :=
  match l with
  | [] => [rev cur]
  | x :: l' =>
      if Ascii.eqb x c then rev cur :: split_go c [] l'
      else split_go c (x :: cur) l'
  end.

Definition split (c : ascii) (l : list ascii) : list (list ascii) :=
  split_go c [] l.

(** The text before the first occurrence of [c] (all of it if there is
    none): the first component of [url.split(c, 1)]. *)
Fixpoint before (c : ascii) (l : list ascii) : list ascii :=
  match l with
  | [] => []
  | x :: l' => if Ascii.eqb x c then [] else x :: before c l'
  end.

(** [_splitparams(url)[0]]: the parameters (after the first [;] of the last
    path segment) are cut off. *)
Fixpoint drop_params (seg : list ascii) (l : list ascii) : list ascii :=
  (* [seg] is the current segment in reverse, [l] what remains *)
  match l with
  | [] => before ";"%char (rev seg)
  | x :: l' =>
      if Ascii.eqb x slash then rev seg ++ slash :: drop_params [] l'
      else drop_params (x :: seg) l'
  end.

(** [urlparse(target).path] for an origin-form request target (a path that
    does not start with two slashes, so there is no scheme and no
    authority to split off): the fragment, the query and the parameters are
    removed. *)
Definition urlparse_path (target : string) : list ascii :=
  let url := list_ascii_of_string target in
  let url := before "#"%char url in
  let url := before "?"%char url in
  drop_params [] url.



End Py.


(* ===================================================================== *)
(** ** The ledger gateway ([blacklist.py])                                *)
(* ===================================================================== *)

Module Blacklist.
Import Py.

(** Modelled from the spec: the AttackRecord of the data model,
    [{ip, attack_type, index}], kept by the ledger that [blacklist.py]
    (absent from the sources) wraps. The index of a record is its position
    in the ledger, so it is not stored. The two fields hold whatever Python
    value the caller of [log_attack] passed. *)
Record AttackRecord : Type := {
  ip : json;
  attack_type : json
}.

(** Modelled from the spec: the ledger is the ordered sequence of its
    records. *)
Definition ledger : Type := list AttackRecord.

(** Modelled from the spec: a record as the dict returned by [list()]. *)
Definition to_dict (index : nat) (r : AttackRecord) : dict :=
  [("ip", ip r); ("attack_type", attack_type r);
   ("index", JInt (Z.of_nat index))].

(** Modelled from the spec: the records from position [index] on, as
    dicts. *)
Fixpoint dicts_from (index : nat) (l : ledger) : list dict :=
  match l with
  | [] => []
  | r :: l' => to_dict index r :: dicts_from (S index) l'
  end.

(** Modelled from the spec: [list() -> ordered sequence of AttackRecord]
    ([get_blacklist] of [blacklist.py]). *)
Definition get_blacklist (l : ledger) : list dict := dicts_from 0 l.

(** Modelled from the spec: [append(ip, attack_type) -> void]
    ([log_attack] of [blacklist.py]). *)
Definition log_attack (ip attack_type : json) (l : ledger) : ledger :=
  l ++ [{| ip := ip; attack_type := attack_type |}].

(** Modelled from the spec: [clear_all() -> void] ([clear_blacklist]). *)
Definition clear_blacklist (l : ledger) : ledger := [].

(** Modelled from the spec: the ledger without the record at position
    [n]. *)
Fixpoint remove_at (n : nat) (l : ledger) : ledger :=
  match l, n with
  | [], _ => []
  | _ :: l', O => l'
  | r :: l', S n' => r :: remove_at n' l'
  end.

(** Modelled from the spec: a record exists at [index]. *)
Definition has_index (index : Z) (l : ledger) : bool :=
  (0 <=? index) && (index <? Z.of_nat (List.length l)).

(** Modelled from the spec: [delete(index) -> bool], true if a record
    existed at that index and was removed ([delete_attack]). *)
Definition delete_attack (index : Z) (l : ledger) : bool * ledger :=
  if has_index index l then (true, remove_at (Z.to_nat index) l)
  else (false, l).

(** Modelled from the spec: what a resynchronisation finds, the records
    now held by the external ledger or a ledger that cannot be reached. It
    is an input of the model. *)
Inductive source : Type :=
| Fetched (records : ledger)
| Unavailable.

(** Modelled from the spec: [refresh_from_source() -> void], a ledger-wide
    resync visible to the following [list()]; a failed refresh raises and
    leaves the previous records in place ([fetch_blacklist]). *)
Definition fetch_blacklist (src : source) (l : ledger) : result ledger :=
  match src with
  | Fetched records => Ok records
  | Unavailable => Raise LedgerError
  end.

(** Modelled from the spec: the forced refresh behind [POST
    /blacklist/update] ([force_update]), the same resync. *)
Definition force_update (src : source) (l : ledger) : result ledger :=
  fetch_blacklist src l.

End Blacklist.

(* ===================================================================== *)
(** ** The server ([server/server.py])                                    *)
(* ===================================================================== *)

Module Server.
Import Py.

(** *** Requests and responses *)

(** The verbs [SimpleRESTHandler] implements ([do_GET], [do_POST],
    [do_DELETE]). *)
Inductive verb : Type := GET | POST | DELETE.

(** The request body as the handlers see it. [NoData]: the Content-Length
    header is absent or 0, nothing is read. [Text data]: the header is a
    positive integer and UTF-8 text was read, on which [json.loads] raises
    ([None]) or returns a value. *)
Inductive payload : Type :=
| NoData
| Text (data : option json).

Record request : Type := {
  command : verb;
  path : string;             (* self.path, the request target *)
  client_address : string;   (* self.client_address[0] *)
  body : payload
}.

(** An f-string, piece by piece. *)
Inductive fpart : Type :=
| Lit (s : string)           (* literal text *)
| Val (v : json)             (* {v} *)
| Val2f (v : json)           (* {v:.2f} *)
| Exc (e : exn).             (* {e} for a caught exception *)

Definition fstring : Type := list fpart.

(** A value of the dict given to [json.dumps]. *)
Inductive rval : Type :=
| Plain (v : json)
| Formatted (f : fstring).

(** What is written after the headers. *)
Inductive content : Type :=
| Json (obj : list (string * rval))       (* json.dumps({...}).encode("utf-8") *)
| Frontend                                (* FRONTEND_HTML.encode("utf-8") *)
| ErrorPage (code : Z) (message : fstring). (* the HTML page of send_error *)

Record response : Type := {
  status : Z;
  content_type : string;
  sent : content
}.

(** A handler returns after writing a response, or an exception escapes
    it and nothing is written. *)
Inductive outcome : Type :=
| Reply (r : response)
| Unhandled (e : exn).

(** [send_response(code)], the JSON content type, [json.dumps(obj)]. *)
Definition send_json (code : Z) (obj : list (string * rval)) : response :=
  {| status := code; content_type := "application/json"; sent := Json obj |}.

(** [BaseHTTPRequestHandler.send_error(code, message)]: the standard
    library answers with its HTML error page. *)
Definition send_error (code : Z) (message : fstring) : response :=
  {| status := code; content_type := "text/html;charset=utf-8";
     sent := ErrorPage code message |}.

Definition error_body (message : fstring) : list (string * rval) :=
  [("error", Formatted message)].

Definition access_denied : response :=
  send_json 403 (error_body [Lit "Access denied: IP blocked"]).

Definition endpoint_not_found : response :=
  send_json 404 (error_body [Lit "Endpoint not found"]).

(** *** Module-level state *)

Record world : Type := {
  auto_update_interval : Z;
  auto_update_event : bool;         (* threading.Event: its flag *)
  stop_event : bool;
  ledger : Blacklist.ledger;        (* the state behind blacklist.py *)
  stdout : list fstring             (* what print(...) wrote, oldest first *)
}.

Definition initial (l : Blacklist.ledger) : world :=
  {| auto_update_interval := 30; auto_update_event := false;
     stop_event := false; ledger := l; stdout := [] |}.

Definition print (line : fstring) (w : world) : world :=
  {| auto_update_interval := auto_update_interval w;
     auto_update_event := auto_update_event w;
     stop_event := stop_event w;
     ledger := ledger w;
     stdout := stdout w ++ [line] |}.

Definition with_ledger (l : Blacklist.ledger) (w : world) : world :=
  {| auto_update_interval := auto_update_interval w;
     auto_update_event := auto_update_event w;
     stop_event := stop_event w;
     ledger := l;
     stdout := stdout w |}.

Definition with_interval (n : Z) (w : world) : world :=
  {| auto_update_interval := n;
     auto_update_event := auto_update_event w;
     stop_event := stop_event w;
     ledger := ledger w;
     stdout := stdout w |}.

(** [auto_update_event.set()] *)
Definition set_auto_update_event (w : world) : world :=
  {| auto_update_interval := auto_update_interval w;
     auto_update_event := true;
     stop_event := stop_event w;
     ledger := ledger w;
     stdout := stdout w |}.

(** [stop_event.set()] *)
Definition set_stop_event (w : world) : world :=
  {| auto_update_interval := auto_update_interval w;
     auto_update_event := auto_update_event w;
     stop_event := true;
     ledger := ledger w;
     stdout := stdout w |}.

(** *** [SimpleRESTHandler] *)

(** The handler object serving one request. [blacklist_ips] is the Python
    set, kept as the list of the values put into it; it is only ever asked
    whether it contains the client address. *)
Record handler : Type := {
  req : request;
  blacklist_ips : list json
}.

(** A fresh handler sees the class attribute [blacklist_ips = set()]. *)
Definition new_handler (r : request) : handler :=
  {| req := r; blacklist_ips := [] |}.

(** [set(attack['ip'] for attack in attacks if 'ip' in attack)] *)
Fixpoint ip_set (attacks : list dict) : result (list json) :=
  match attacks with
  | [] => Ok []
  | attack :: rest =>
      if dict_contains "ip" attack then
        v <- dict_getitem attack "ip" ;;
        if hashable v then s <- ip_set rest ;; Ok (v :: s)
        else Raise TypeError
      else ip_set rest
  end.

Definition load_blacklist (w : world) (self : handler) : result handler :=
  let attacks := Blacklist.get_blacklist (ledger w) in
  s <- ip_set attacks ;;
  Ok {| req := req self; blacklist_ips := s |}.

(** [client_ip in s] for a [str]: it equals only the same string. *)
Definition str_in (client_ip : string) (s : list json) : bool :=
  existsb (fun v => match v with
                    | JString x => String.eqb client_ip x
                    | _ => false
                    end) s.

Definition client_ip_blocked (self : handler) : bool :=
  let client_ip := client_address (req self) in
  str_in client_ip (blacklist_ips self).

Definition attacks_json (w : world) : json :=
  JArray (map JObject (Blacklist.get_blacklist (ledger w))).

Definition do_GET (w : world) (self : handler) : world * outcome :=
  match load_blacklist w self with
  | Raise e => (w, Unhandled e)
  | Ok self =>
      if client_ip_blocked self then (w, Reply access_denied)
      else if String.eqb (path (req self)) "/blacklist" then
        (w, Reply (send_json 200
                     [("status", Plain (JString "Blacklist fetched"));
                      ("attacks", Plain (attacks_json w))]))
      else if String.eqb (path (req self)) "/" then
        (w, Reply {| status := 200; content_type := "text/html";
                     sent := Frontend |})
      else (w, Reply endpoint_not_found)
  end.

(** [json.loads(body)] *)
Definition json_loads (b : payload) : result json :=
  match b with
  | Text (Some data) => Ok data
  | Text None | NoData => Raise JSONDecodeError
  end.

(** The [try] block of the set-interval route. *)
Definition read_interval (b : payload) : result Z :=
  data <- json_loads b ;;
  v <- get data "interval" (JInt 0) ;;
  new_interval <- int v ;;
  if new_interval <? 1 then Raise (ValueError "Interval must be >= 1")
  else Ok new_interval.

(** The [try] block of the log route. *)
Definition read_attack (b : payload) : result (json * json) :=
  data <- json_loads b ;;
  ip <- get data "ip" JNull ;;
  attack_type <- get data "attack_type" JNull ;;
  if negb (truthy ip) || negb (truthy attack_type)
  then Raise (ValueError "Missing ip or attack_type")
  else Ok (ip, attack_type).

Definition test_attacks : list (string * string) :=
  [("1.1.1.1", "DoS Test"); ("2.2.2.2", "DoS Test"); ("3.3.3.3", "DoS Test");
   ("4.4.4.4", "DoS Test"); ("5.5.5.5", "DoS Test")].

Definition add_test_attacks (l : Blacklist.ledger) : Blacklist.ledger :=
  fold_left (fun l a => Blacklist.log_attack (JString (fst a)) (JString (snd a)) l)
            test_attacks l.

Definition do_POST (src : Blacklist.source) (w : world) (self : handler)
  : world * outcome :=
  match load_blacklist w self with
  | Raise e => (w, Unhandled e)
  | Ok self =>
      if client_ip_blocked self then (w, Reply access_denied)
      else if String.eqb (path (req self)) "/blacklist/set-interval" then
        match body (req self) with
        | NoData => (w, Reply (send_error 400 [Lit "No data received"]))
        | Text _ =>
            match read_interval (body (req self)) with
            | Raise e =>
                (w, Reply (send_error 400 [Lit "Invalid data: "; Exc e]))
            | Ok new_interval =>
                let w := with_interval new_interval w in
                let w := print [Lit "[INFO] Auto update interval set to ";
                                Val (JInt (auto_update_interval w));
                                Lit " seconds"] w in
                let w := set_auto_update_event w in
                (w, Reply (send_json 200
                             [("status", Plain (JString "success"));
                              ("new_interval",
                               Plain (JInt (auto_update_interval w)))]))
            end
        end
      else if String.eqb (path (req self)) "/blacklist/update" then
        match Blacklist.force_update src (ledger w) with
        | Raise e => (w, Unhandled e)
        | Ok l =>
            let w := with_ledger l w in
            (w, Reply (send_json 200
                         [("status", Plain (JString "Blacklist updated"));
                          ("attacks", Plain (attacks_json w))]))
        end
      else if String.eqb (path (req self)) "/blacklist/clear" then
        let w := with_ledger (Blacklist.clear_blacklist (ledger w)) w in
        (w, Reply (send_json 200
                     [("status", Plain (JString "Blacklist cleared"))]))
      else if String.eqb (path (req self)) "/blacklist/log" then
        match read_attack (body (req self)) with
        | Raise _ =>
            (w, Reply (send_json 400
                         (error_body [Lit "Invalid JSON or missing fields"])))
        | Ok (ip, attack_type) =>
            let w := with_ledger (Blacklist.log_attack ip attack_type (ledger w)) w in
            (w, Reply (send_json 200
                         [("status", Formatted [Lit "Attack from IP "; Val ip;
                                                Lit " logged"])]))
        end
      else if String.eqb (path (req self)) "/blacklist/addTestAttacks" then
        let w := with_ledger (add_test_attacks (ledger w)) w in
        (w, Reply (send_json 200
                     [("message",
                       Plain (JString "Test attacks added successfully"))]))
      else (w, Reply endpoint_not_found)
  end.

(** [urlparse(self.path).path.strip('/').split('/')] *)
Definition path_parts (target : string) : list string :=
  map string_of_list_ascii
      (split slash (strip_char slash (urlparse_path target))).

Definition do_DELETE (w : world) (self : handler) : world * outcome :=
  let path_parts := path_parts (path (req self)) in
  if (List.length path_parts =? 3)%nat
     && String.eqb (nth 0 path_parts "") "blacklist"
     && String.eqb (nth 1 path_parts "") "delete"
  then
    match int_of_string (nth 2 path_parts "") with
    | None =>
        (w, Reply (send_json 400 (error_body [Lit "Index must be an integer"])))
    | Some index =>
        let (success, l) := Blacklist.delete_attack index (ledger w) in
        let w := with_ledger l w in
        if success then
          (w, Reply (send_json 200
                       [("message", Formatted [Lit "Attack at index ";
                                               Val (JInt index);
                                               Lit " deleted"])]))
        else
          (w, Reply (send_json 404
                       (error_body [Lit "No attack found at index ";
                                    Val (JInt index)])))
    end
  else (w, Reply (send_error 404 [Lit "Path not found"])).

(** [BaseHTTPRequestHandler] creates a handler for the request and calls
    the method named after the verb. *)
Definition handle (src : Blacklist.source) (w : world) (r : request)
  : world * outcome :=
  let self := new_handler r in
  match command r with
  | GET => do_GET w self
  | POST => do_POST src w self
  | DELETE => do_DELETE w self
  end.

(** *** The refresh thread, [periodic_update] *)

(** Where the thread running [periodic_update] is: at the [while] test
    ([Running]), blocked in [stop_event.wait(timeout=...)] with the timeout
    it was called with and the seconds elapsed since ([Waiting]), or past
    the loop ([Stopped]). *)
Inductive thread : Type :=
| Running
| Waiting (timeout elapsed : Z)
| Stopped.

Record system : Type := {
  state : world;
  scheduler : thread
}.

Definition boot (l : Blacklist.ledger) : system :=
  {| state := initial l; scheduler := Running |}.

(** The thread runs until it next blocks or leaves the loop. [src] is
    what [fetch_blacklist] finds if it is called. The wait takes any
    timeout: the largest timeout of the platform and the range of
    [{...:.2f}] are not modelled. *)
Definition periodic_update (src : Blacklist.source) (s : system) : system :=
  match scheduler s with
  | Running =>
      if stop_event (state s) then
        {| state := state s; scheduler := Stopped |}
      else
        let w := print [Lit "[INFO] Running periodic blacklist update..."]
                       (state s) in
        let w := match Blacklist.fetch_blacklist src (ledger w) with
                 | Ok l => with_ledger l w
                 | Raise e =>
                     print [Lit "[ERROR] Error updating blacklist: "; Exc e] w
                 end in
        let w := print [Lit "[INFO] Waiting ";
                        Val2f (JInt (auto_update_interval w));
                        Lit "s until next update."] w in
        {| state := w; scheduler := Waiting (auto_update_interval w) 0 |}
  | Waiting timeout elapsed =>
      if stop_event (state s) then
        (* wait returns True: break *)
        {| state := state s; scheduler := Stopped |}
      else if timeout <=? elapsed then
        (* wait returns False: back to the while test *)
        {| state := state s; scheduler := Running |}
      else s
  | Stopped => s
  end.

Definition newline : string := String (ascii_of_nat 10) "".

(** [signal_handler]: the module-level [httpd] is still [None] ([main]
    binds a local of that name), so the [if httpd:] branch is skipped. *)
Definition signal_handler (w : world) : world :=
  let w := print [Lit newline; Lit "[INFO] Shutting down server..."] w in
  let w := set_stop_event w in
  let w := set_auto_update_event w in
  print [Lit "[INFO] Server shutdown complete."] w.

(** *** Interleaving *)

(** What can happen next: a second passes, the refresh thread is
    scheduled, a request is served, SIGINT arrives. *)
Inductive event : Type :=
| Tick
| Schedule (src : Blacklist.source)
| Http (r : request) (src : Blacklist.source)
| Sigint.

Definition tick (t : thread) : thread :=
  match t with
  | Waiting timeout elapsed => Waiting timeout (elapsed + 1)
  | _ => t
  end.

Definition step (s : system) (ev : event) : system * list outcome :=
  match ev with
  | Tick => ({| state := state s; scheduler := tick (scheduler s) |}, [])
  | Schedule src => (periodic_update src s, [])
  | Http r src =>
      let (w, out) := handle src (state s) r in
      ({| state := w; scheduler := scheduler s |}, [out])
  | Sigint =>
      ({| state := signal_handler (state s); scheduler := scheduler s |}, [])
  end.

Fixpoint run (s : system) (evs : list event) : system * list outcome :=
  match evs with
  | [] => (s, [])
  | ev :: evs' =>
      let (s1, out1) := step s ev in
      let (s2, out2) := run s1 evs' in
      (s2, out1 ++ out2)
  end.

(** How many times the loop body started a refresh. *)
Definition refreshes (w : world) : nat :=
  List.length
    (filter (fun line =>
               match line with
               | [Lit text] =>
                   String.eqb text "[INFO] Running periodic blacklist update..."
               | _ => false
               end) (stdout w)).

(** *** The port chosen by [main] *)


End Server.

(* ===================================================================== *)
(** ** Derived notions and sample inputs                                  *)
(* ===================================================================== *)

Import Py Server.

(** The caller of [r] gets past [load_blacklist] and [client_ip_blocked]. *)
Definition passes_gate (w : world) (r : request) : bool :=
  match load_blacklist w (new_handler r) with
  | Ok self => negb (client_ip_blocked self)
  | Raise _ => false
  end.

(** The caller of [r] is found in the freshly loaded blacklist. *)
Definition blocked (w : world) (r : request) : bool :=
  match load_blacklist w (new_handler r) with
  | Ok self => client_ip_blocked self
  | Raise _ => false
  end.

(** The body of an error response is the object [{"error": <message>}]. *)
Definition structured_error (c : content) : Prop :=
  exists message, c = Json [("error", message)].

Definition post (target client : string) (b : payload) : request :=
  {| command := POST; path := target; client_address := client; body := b |}.

Definition interval_body (v : json) : payload :=
  Text (Some (JObject [("interval", v)])).

Definition attack_body (ip attack_type : json) : payload :=
  Text (Some (JObject [("ip", ip); ("attack_type", attack_type)])).

Definition one_attacker : Blacklist.ledger :=
  [{| Blacklist.ip := JString "6.6.6.6"; Blacklist.attack_type := JString "DoS" |}].


Definition get_from (target client : string) : request :=
  {| command := GET; path := target; client_address := client; body := NoData |}.

Definition delete_from (target client : string) : request :=
  {| command := DELETE; path := target; client_address := client;
     body := NoData |}.





(** The same request with another target. *)
Definition with_path (target : string) (r : request) : request :=
  {| command := command r; path := target;
     client_address := client_address r; body := body r |}.

(** No character of [text] is [c]. *)
Definition free_of (c : ascii) (text : string) : bool :=
  forallb (fun x => negb (Ascii.eqb x c)) (list_ascii_of_string text).

(** The seconds that pass during [evs]. *)
Fixpoint ticks (evs : list event) : Z :=
  match evs with
  | [] => 0
  | Tick :: evs' => 1 + ticks evs'
  | _ :: evs' => ticks evs'
  end.

(** No SIGINT arrives during [evs]. *)
Fixpoint undisturbed (evs : list event) : bool :=
  match evs with
  | [] => true
  | Sigint :: _ => false
  | _ :: evs' => undisturbed evs'
  end.

(** The interval, and the timeout of a wait in progress, are at least 1. *)
Definition interval_ok (s : system) : Prop :=
  1 <= auto_update_interval (state s)
  /\ match scheduler s with
     | Waiting timeout elapsed => 1 <= timeout /\ 0 <= elapsed
     | _ => True
     end.

(** A ledger read with an unhashable [ip]. *)
Definition unhashable_read : list dict :=
  [[("ip", JString "1.1.1.1")]; [("ip", JArray [JString "2.2.2.2"])]].

(* ===================================================================== *)
(** ** Basic facts about the handlers                                     *)
(* ===================================================================== *)

Section Gate.

Variables (w : world) (r : request).

Lemma passes_gate_inv :
  passes_gate w r = true ->
  exists s, load_blacklist w (new_handler r) = Ok {| req := r; blacklist_ips := s |}
            /\ str_in (client_address r) s = false.
Proof.
  unfold passes_gate, load_blacklist, bind, client_ip_blocked.
  destruct (ip_set _) as [s|e]; simpl; intros H; [|discriminate].
  exists s. split; [reflexivity|].
  now apply negb_true_iff.
Qed.

Lemma blocked_inv :
  blocked w r = true ->
  exists s, load_blacklist w (new_handler r) = Ok {| req := r; blacklist_ips := s |}
            /\ str_in (client_address r) s = true.
Proof.
  unfold blocked, load_blacklist, bind, client_ip_blocked.
  destruct (ip_set _) as [s|e]; simpl; intros H; [|discriminate].
  exists s. split; [reflexivity|assumption].
Qed.

End Gate.

(** Opens [handle] on a POST whose caller passed the gate. *)
Ltac open_gate Hcmd Hgate :=
  let s := fresh "s" in
  let Hload := fresh "Hload" in
  let Hin := fresh "Hin" in
  destruct (passes_gate_inv _ _ Hgate) as (s & Hload & Hin);
  unfold handle; cbv zeta; rewrite Hcmd; unfold do_POST, do_GET;
  rewrite Hload; unfold client_ip_blocked; cbn [req blacklist_ips];
  rewrite Hin.

(** No handler touches [stop_event]. *)
Lemma handle_stop_event src w r :
  stop_event (fst (handle src w r)) = stop_event w.
Proof.
  unfold handle, do_GET, do_POST, do_DELETE.
  destruct (command r).
  - destruct (load_blacklist _ _); [|reflexivity].
    repeat match goal with
           | |- context [if ?c then _ else _] => destruct c
           end; reflexivity.
  - destruct (load_blacklist _ _); [|reflexivity].
    repeat match goal with
           | |- context [if ?c then _ else _] => destruct c
           | |- context [match body ?x with _ => _ end] => destruct (body x)
           | |- context [match read_interval ?x with _ => _ end] =>
               destruct (read_interval x)
           | |- context [match read_attack ?x with _ => _ end] =>
               destruct (read_attack x) as [[? ?]|?]
           | |- context [match Blacklist.force_update ?a ?b with _ => _ end] =>
               destruct (Blacklist.force_update a b)
           end; reflexivity.
  - repeat match goal with
           | |- context [if ?c then _ else _] => destruct c
           | |- context [match int_of_string ?x with _ => _ end] =>
               destruct (int_of_string x)
           | |- context [Blacklist.delete_attack ?a ?b] =>
               destruct (Blacklist.delete_attack a b) as [[|] ?]
           end; reflexivity.
Qed.

(** No handler moves the refresh thread. *)
Lemma step_http_scheduler s r src :
  scheduler (fst (step s (Http r src))) = scheduler s.
Proof.
  unfold step. destruct (handle src (state s) r). reflexivity.
Qed.

(* ===================================================================== *)
(** ** The refresh thread                                                 *)
(* ===================================================================== *)

Section Scheduler.

Variable src : Blacklist.source.


Lemma run_app evs1 : forall s evs2,
  run s (evs1 ++ evs2)
  = let (s1, out1) := run s evs1 in
    let (s2, out2) := run s1 evs2 in (s2, out1 ++ out2).
Proof.
  induction evs1 as [|ev evs1 IH]; intros s evs2.
  - cbn [app run]. now destruct (run s evs2).
  - cbn [app run]. destruct (step s ev) as [s1 out1].
    rewrite IH. destruct (run s1 evs1) as [s2 out2].
    destruct (run s2 evs2) as [s3 out3]. now rewrite app_assoc.
Qed.


(** A wait whose timeout has not elapsed is left only by [stop_event]. *)
Lemma wait_blocks w timeout elapsed :
  stop_event w = false -> elapsed < timeout ->
  periodic_update src {| state := w; scheduler := Waiting timeout elapsed |}
  = {| state := w; scheduler := Waiting timeout elapsed |}.
Proof.
  intros Hstop Hlt. unfold periodic_update. cbn [scheduler state].
  rewrite Hstop. destruct (Z.leb_spec timeout elapsed); [lia|reflexivity].
Qed.


End Scheduler.


(* ===================================================================== *)
(** ** POST /blacklist/set-interval                                       *)
(* ===================================================================== *)





(** C10, as the code has it. With a caller who passes the access gate:
    a POST /blacklist/log whose [ip] or [attack_type] is present with a
    falsy value is answered 400 and appends nothing; a POST
    /blacklist/set-interval whose [interval] is converted by [int] to an
    integer [n >= 1] is answered 200, stores [n] and echoes [n]. *)
Theorem falsy_fields_and_converted_interval src w r1 d1 v1 r2 d2 v2 n :
  command r1 = POST ->
  path r1 = "/blacklist/log" ->
  passes_gate w r1 = true ->
  body r1 = Text (Some (JObject d1)) ->
  dict_lookup "ip" d1 = Some v1 \/ dict_lookup "attack_type" d1 = Some v1 ->
  truthy v1 = false ->
  command r2 = POST ->
  path r2 = "/blacklist/set-interval" ->
  passes_gate w r2 = true ->
  body r2 = Text (Some (JObject d2)) ->
  dict_lookup "interval" d2 = Some v2 ->
  int v2 = Ok n ->
  1 <= n ->
  handle src w r1
  = (w, Reply (send_json 400 (error_body [Lit "Invalid JSON or missing fields"])))
  /\ exists w',
      handle src w r2
      = (w', Reply (send_json 200 [("status", Plain (JString "success"));
                                   ("new_interval", Plain (JInt n))]))
      /\ auto_update_interval w' = n.
Proof.
  intros Hcmd1 Hpath1 Hgate1 Hbody1 Hfield Hfalsy
         Hcmd2 Hpath2 Hgate2 Hbody2 Hint Hconv Hn.
  split.
  - open_gate Hcmd1 Hgate1. rewrite Hpath1.
    cbn [String.eqb Ascii.eqb Bool.eqb].
    rewrite Hbody1. unfold read_attack, json_loads, get, bind.
    destruct Hfield as [Hip | Hty].
    + rewrite Hip, Hfalsy.
      destruct (dict_lookup "attack_type" d1); reflexivity.
    + rewrite Hty, Hfalsy.
      destruct (dict_lookup "ip" d1) as [ip|]; [|reflexivity].
      destruct (truthy ip); reflexivity.
  - open_gate Hcmd2 Hgate2. rewrite Hpath2.
    cbn [String.eqb Ascii.eqb Bool.eqb].
    rewrite Hbody2. unfold read_interval, json_loads, get, bind.
    rewrite Hint, Hconv.
    destruct (Z.ltb_spec n 1) as [Hlt|_]; [lia|].
    eexists. split; reflexivity.
Qed.

(** C10, as stated, fails: [int] converts the string "0" and the float 0.5
    (to 0), yet the request is refused with 400 and the interval stays. *)
Lemma set_interval_convertible_refused :
  let w := initial [] in
  let r := post "/blacklist/set-interval" "10.0.0.7"
                (interval_body (JString "0")) in
  let r' := post "/blacklist/set-interval" "10.0.0.7"
                 (interval_body (JFloat (FFinite 1 (-1)))) in
  int (JString "0") = Ok 0
  /\ int (JFloat (FFinite 1 (-1))) = Ok 0
  /\ passes_gate w r = true
  /\ handle Blacklist.Unavailable w r
     = (w, Reply (send_error 400 [Lit "Invalid data: ";
                                  Exc (ValueError "Interval must be >= 1")]))
  /\ handle Blacklist.Unavailable w r'
     = (w, Reply (send_error 400 [Lit "Invalid data: ";
                                  Exc (ValueError "Interval must be >= 1")])).
Proof.
  cbv zeta. repeat split; reflexivity.
Qed.

(* ===================================================================== *)
(** ** POST /blacklist/log                                                *)
(* ===================================================================== *)



(* ===================================================================== *)
(** ** The access gate                                                    *)
(* ===================================================================== *)

(** [do_GET] and [do_POST] refuse a blocked caller before looking at the
    path, and change nothing. *)
Lemma get_post_refuse_blocked src w r :
  command r <> DELETE ->
  blocked w r = true ->
  handle src w r = (w, Reply access_denied).
Proof.
  intros Hcmd Hblocked.
  destruct (blocked_inv _ _ Hblocked) as (s & Hload & Hin).
  unfold handle; cbv zeta.
  destruct (command r); [| |congruence];
    unfold do_GET, do_POST; rewrite Hload;
    unfold client_ip_blocked; cbn [req blacklist_ips]; now rewrite Hin.
Qed.

(** [do_DELETE] answers every caller alike: the client address plays no
    part in it. *)
Lemma delete_ignores_caller src w r client :
  command r = DELETE ->
  handle src w {| command := DELETE; path := path r;
                  client_address := client; body := body r |}
  = handle src w r.
Proof.
  intros Hcmd. unfold handle; cbv zeta. rewrite Hcmd. reflexivity.
Qed.

(** C1 at the failing input. The ledger lists 6.6.6.6. Its GET is refused
    with 403, but its DELETE /blacklist/delete/0 is served: [do_DELETE]
    neither loads the blacklist nor checks the caller, the record is
    removed and the answer is 200. *)
Theorem delete_served_to_blocked_caller :
  let w := initial one_attacker in
  let r := delete_from "/blacklist/delete/0" "6.6.6.6" in
  blocked w r = true
  /\ handle Blacklist.Unavailable w (get_from "/blacklist" "6.6.6.6")
     = (w, Reply access_denied)
  /\ handle Blacklist.Unavailable w r
     = (with_ledger [] w,
        Reply (send_json 200 [("message", Formatted [Lit "Attack at index ";
                                                     Val (JInt 0);
                                                     Lit " deleted"])])).
Proof.
  cbv zeta. repeat split; reflexivity.
Qed.

(* ===================================================================== *)
(** ** Error bodies                                                       *)
(* ===================================================================== *)

(** The page written by [send_error] is not a JSON error object. *)
Lemma send_error_unstructured code message :
  ~ structured_error (sent (send_error code message)).
Proof.
  intros (m & H). discriminate H.
Qed.

(** C3 at the failing inputs. An unknown DELETE route and an invalid or
    empty set-interval body are answered through [send_error]: the body is
    the HTML error page, not [{"error": <message>}]; the unknown POST
    route next to them does answer with the JSON object. *)
Theorem send_error_replies_are_html :
  let w := initial [] in
  handle Blacklist.Unavailable w (delete_from "/nope" "10.0.0.7")
  = (w, Reply (send_error 404 [Lit "Path not found"]))
  /\ handle Blacklist.Unavailable w
            (post "/blacklist/set-interval" "10.0.0.7" (interval_body (JInt 0)))
     = (w, Reply (send_error 400 [Lit "Invalid data: ";
                                  Exc (ValueError "Interval must be >= 1")]))
  /\ handle Blacklist.Unavailable w
            (post "/blacklist/set-interval" "10.0.0.7" NoData)
     = (w, Reply (send_error 400 [Lit "No data received"]))
  /\ (forall code message,
        content_type (send_error code message) = "text/html;charset=utf-8"
        /\ ~ structured_error (sent (send_error code message)))
  /\ handle Blacklist.Unavailable w (post "/nope" "10.0.0.7" NoData)
     = (w, Reply endpoint_not_found)
  /\ structured_error (sent endpoint_not_found).
Proof.
  cbv zeta. repeat split; try reflexivity.
  - apply send_error_unstructured.
  - eexists; reflexivity.
Qed.

(* ===================================================================== *)
(** ** The refresh thread and the interval                                *)
(* ===================================================================== *)

(** Serving a request never ends a wait in progress: afterwards the thread
    is still blocked, with the timeout it started with. *)
Lemma request_leaves_wait s timeout elapsed r src src' :
  scheduler s = Waiting timeout elapsed ->
  elapsed < timeout ->
  stop_event (state s) = false ->
  periodic_update src' (fst (step s (Http r src))) = fst (step s (Http r src))
  /\ scheduler (fst (step s (Http r src))) = Waiting timeout elapsed.
Proof.
  intros Hsched Hlt Hstop.
  pose proof (step_http_scheduler s r src) as Hs.
  pose proof (handle_stop_event src (state s) r) as Hw.
  unfold step in *. destruct (handle src (state s) r) as [w' out].
  cbn [fst scheduler state] in *. rewrite Hsched in *.
  split; [|reflexivity].
  apply wait_blocks; [congruence|assumption].
Qed.

(** C2 at the failing input. The thread starts its 30 s wait; one second
    later the interval is set to 1. The request is answered 200,
    [auto_update_interval] is 1 and [auto_update_event] is set, but the
    thread waits on [stop_event] only: scheduled again after each of the
    next seconds it is still in the 30 s wait, and no second refresh has
    run. *)
Theorem interval_change_does_not_wake_wait :
  let change := Http (post "/blacklist/set-interval" "10.0.0.7"
                           (interval_body (JInt 1))) Blacklist.Unavailable in
  let again := Schedule (Blacklist.Fetched []) in
  let evs := [Schedule (Blacklist.Fetched []); Tick; change;
              again; Tick; again; Tick; again; Tick; again] in
  let s := fst (run (boot []) evs) in
  snd (run (boot []) evs)
  = [Reply (send_json 200 [("status", Plain (JString "success"));
                           ("new_interval", Plain (JInt 1))])]
  /\ auto_update_interval (state s) = 1
  /\ auto_update_event (state s) = true
  /\ scheduler s = Waiting 30 4
  /\ refreshes (state s) = 1%nat.
Proof.
  cbv zeta. repeat split; reflexivity.
Qed.



(* ===================================================================== *)
(** ** DELETE /blacklist/delete/{index}                                   *)
(* ===================================================================== *)

Section Paths.

Variable c : ascii.

Lemma before_absent l :
  forallb (fun x => negb (Ascii.eqb x c)) l = true -> before c l = l.
Proof.
  induction l as [|x l IH]; cbn [forallb before]; [reflexivity|].
  intros H. apply andb_true_iff in H. destruct H as [Hx Hl].
  apply negb_true_iff in Hx. rewrite Hx. now rewrite IH.
Qed.




End Paths.








Lemma has_index_nth index l :
  Blacklist.has_index index l = true
  <-> 0 <= index /\ nth_error l (Z.to_nat index) <> None.
Proof.
  unfold Blacklist.has_index. rewrite andb_true_iff, Z.leb_le, Z.ltb_lt.
  rewrite nth_error_Some. split; intros [H0 H1]; split; lia.
Qed.


(* ===================================================================== *)
(** ** [load_blacklist]                                                   *)
(* ===================================================================== *)

Lemma dict_contains_lookup k d :
  dict_contains k d = true <-> dict_lookup k d <> None.
Proof.
  induction d as [|[k' v] d IH]; cbn [dict_contains dict_lookup].
  - split; [discriminate|congruence].
  - destruct (String.eqb k k'); [|exact IH].
    split; [discriminate|reflexivity].
Qed.



(* ===================================================================== *)
(** ** The theorems at concrete inputs                                    *)
(* ===================================================================== *)







(** [falsy_fields_and_converted_interval] on an empty [attack_type] and on
    the interval "5". *)
Lemma falsy_fields_and_converted_interval_witness :
  let w := initial one_attacker in
  let r1 := post "/blacklist/log" "10.0.0.7"
                 (attack_body (JString "9.9.9.9") (JString "")) in
  let r2 := post "/blacklist/set-interval" "10.0.0.7"
                 (interval_body (JString "5")) in
  handle Blacklist.Unavailable w r1
  = (w, Reply (send_json 400 (error_body [Lit "Invalid JSON or missing fields"])))
  /\ exists w',
      handle Blacklist.Unavailable w r2
      = (w', Reply (send_json 200 [("status", Plain (JString "success"));
                                   ("new_interval", Plain (JInt 5))]))
      /\ auto_update_interval w' = 5.
Proof.
  cbv zeta.
  exact (falsy_fields_and_converted_interval Blacklist.Unavailable
           (initial one_attacker)
           (post "/blacklist/log" "10.0.0.7"
                 (attack_body (JString "9.9.9.9") (JString "")))
           [("ip", JString "9.9.9.9"); ("attack_type", JString "")]
           (JString "")
           (post "/blacklist/set-interval" "10.0.0.7"
                 (interval_body (JString "5")))
           [("interval", JString "5")] (JString "5") 5
           eq_refl eq_refl eq_refl eq_refl (or_intror eq_refl) eq_refl
           eq_refl eq_refl eq_refl eq_refl eq_refl eq_refl ltac:(lia)).
Defined.

(* ===================================================================== *)
(** ** Further properties of the handlers                                 *)
(* ===================================================================== *)

(** Unfolds a handler down to its tests. *)
Ltac open_handle :=
  unfold handle, do_GET, do_POST, do_DELETE, load_blacklist, bind;
  cbv zeta; cbn [req new_handler blacklist_ips].

(** Splits on every test of an opened handler. *)
Ltac split_handle :=
  repeat match goal with
         | |- context [match ip_set ?x with _ => _ end] =>
             let s := fresh "s" in
             let e := fresh "e" in
             let H := fresh "Hset" in
             destruct (ip_set x) as [s|e] eqn:H;
             unfold client_ip_blocked; cbn [req new_handler blacklist_ips]
         | |- context [if ?c then _ else _] =>
             let H := fresh "Htest" in destruct c eqn:H
         | |- context [match body ?x with _ => _ end] =>
             let H := fresh "Hbody" in destruct (body x) eqn:H
         | |- context [match read_interval ?x with _ => _ end] =>
             let H := fresh "Hread" in destruct (read_interval x) eqn:H
         | |- context [match read_attack ?x with _ => _ end] =>
             let H := fresh "Hread" in destruct (read_attack x) as [[? ?]|?] eqn:H
         | |- context [match Blacklist.force_update ?a ?b with _ => _ end] =>
             let H := fresh "Hforce" in destruct (Blacklist.force_update a b) eqn:H
         | |- context [match int_of_string ?x with _ => _ end] =>
             let H := fresh "Hint" in destruct (int_of_string x) eqn:H
         | |- context [Blacklist.delete_attack ?a ?b] =>
             let H := fresh "Hdel" in
             destruct (Blacklist.delete_attack a b) as [[|] ?] eqn:H
         end.

(** The strings in the set are those a string is found among. *)
Lemma str_in_spec client s :
  str_in client s = true <-> In (JString client) s.
Proof.
  unfold str_in. rewrite existsb_exists. split.
  - intros (v & Hv & Heq). destruct v; try discriminate.
    apply String.eqb_eq in Heq. now subst.
  - intros H. exists (JString client). split; [assumption|].
    apply String.eqb_refl.
Qed.

(** What a successful load has collected. *)
Lemma ip_set_members attacks : forall s,
  ip_set attacks = Ok s ->
  forall v, In v s <->
            exists attack, In attack attacks /\ dict_lookup "ip" attack = Some v.
Proof.
  induction attacks as [|a l IH]; intros s Hs v; cbn [ip_set] in Hs.
  - injection Hs as <-. split; [intros []|intros (x & [] & _)].
  - unfold dict_getitem, bind in Hs.
    destruct (dict_contains "ip" a) eqn:Hc.
    + destruct (dict_lookup "ip" a) as [v0|] eqn:Hl; [|discriminate].
      destruct (hashable v0); [|discriminate].
      destruct (ip_set l) as [s0|] eqn:Hl0; [|discriminate].
      injection Hs as <-. cbn [In]. rewrite (IH s0 eq_refl v). split.
      * intros [<- | (x & Hx & Hv)].
        -- exists a. split; [now left|assumption].
        -- exists x. split; [now right|assumption].
      * intros (x & [<- | Hx] & Hv).
        -- left. congruence.
        -- right. now exists x.
    + rewrite (IH s Hs v). split.
      * intros (x & Hx & Hv). exists x. split; [now right|assumption].
      * intros (x & [<- | Hx] & Hv).
        -- assert (Hn : dict_lookup "ip" a <> None) by congruence.
           apply dict_contains_lookup in Hn. congruence.
        -- now exists x.
Qed.

(** X1. When the blacklist loads, a GET or POST is answered with the 403
    access-denied reply exactly when the caller's address is the [ip] of
    some record of the ledger read, whatever the path and the body; and
    then nothing is changed. *)
Theorem access_denied_iff_listed src w r s :
  command r <> DELETE ->
  ip_set (Blacklist.get_blacklist (ledger w)) = Ok s ->
  (snd (handle src w r) = Reply access_denied
   <-> exists attack,
        In attack (Blacklist.get_blacklist (ledger w))
        /\ dict_lookup "ip" attack = Some (JString (client_address r)))
  /\ (snd (handle src w r) = Reply access_denied -> fst (handle src w r) = w).
Proof.
  intros Hcmd Hs.
  pose proof (ip_set_members _ s Hs (JString (client_address r))) as Hmem.
  rewrite <- Hmem, <- str_in_spec. clear Hmem.
  open_handle. rewrite Hs.
  unfold client_ip_blocked; cbn [req new_handler blacklist_ips].
  destruct (command r); [| |congruence];
    (destruct (str_in (client_address r) s);
     [split; [split; reflexivity|reflexivity]|]);
    split_handle; cbn [fst snd];
    (split; [split; discriminate|discriminate]).
Qed.

(** X2. [load_blacklist] can fail in one way only: with TypeError, on a
    record whose [ip] is there but unhashable. The guard rules out
    KeyError. *)
Theorem ip_set_fails_on_unhashable_only attacks e :
  ip_set attacks = Raise e ->
  e = TypeError
  /\ exists attack v, In attack attacks
                      /\ dict_lookup "ip" attack = Some v
                      /\ hashable v = false.
Proof.
  induction attacks as [|a l IH]; cbn [ip_set]; [discriminate|].
  unfold dict_getitem, bind.
  destruct (dict_contains "ip" a) eqn:Hc.
  - destruct (dict_lookup "ip" a) as [v|] eqn:Hl.
    + destruct (hashable v) eqn:Hh.
      * destruct (ip_set l) as [s|e'] eqn:Hl0; [discriminate|].
        intros H. injection H as ->.
        destruct (IH eq_refl) as (-> & x & v' & Hx & Hv & Hu).
        split; [reflexivity|]. exists x, v'. split; [now right|now split].
      * intros H. injection H as <-. split; [reflexivity|].
        exists a, v. split; [now left|now split].
    + apply dict_contains_lookup in Hc. congruence.
  - intros H. destruct (IH H) as (-> & x & v' & Hx & Hv & Hu).
    split; [reflexivity|]. exists x, v'. split; [now right|now split].
Qed.

(** X3. A GET changes nothing: not the ledger, not the interval, not the
    events, whatever the path and whoever the caller. *)
Theorem get_changes_nothing src w r :
  command r = GET ->
  fst (handle src w r) = w.
Proof.
  intros Hcmd. open_handle. rewrite Hcmd. split_handle; reflexivity.
Qed.




(* ===================================================================== *)
(** ** Further properties of the running system                           *)
(* ===================================================================== *)

Lemma run_cons_fst s ev evs :
  fst (run s (ev :: evs)) = fst (run (fst (step s ev)) evs).
Proof.
  cbn [run]. destruct (step s ev) as [s1 out1]. cbn [fst].
  now destruct (run s1 evs).
Qed.

(** A handler leaves an interval of at least 1 at least 1. *)
Lemma handle_keeps_interval src w r :
  1 <= auto_update_interval w ->
  1 <= auto_update_interval (fst (handle src w r)).
Proof.
  intros Hw. open_handle. destruct (command r); split_handle;
    cbn [fst auto_update_interval with_ledger set_auto_update_event print
         with_interval]; try assumption.
  unfold read_interval, bind in Hread.
  destruct (json_loads _); [|discriminate].
  destruct (get _ _ _); [|discriminate].
  destruct (int _) as [n|]; [|discriminate].
  destruct (Z.ltb_spec n 1); [discriminate|].
  now injection Hread as <-.
Qed.

(** No handler prints the line that starts a refresh. *)
Lemma handle_refreshes src w r :
  refreshes (fst (handle src w r)) = refreshes w.
Proof.
  open_handle. destruct (command r); split_handle;
    cbn [fst with_ledger set_auto_update_event print with_interval];
    try reflexivity.
  unfold refreshes, set_auto_update_event, print, with_interval.
  cbn [stdout]. rewrite filter_app, length_app.
  cbn [filter List.length]. now rewrite Nat.add_0_r.
Qed.

Lemma signal_handler_refreshes w :
  refreshes (signal_handler w) = refreshes w.
Proof.
  unfold refreshes, signal_handler. cbn [stdout print set_stop_event
    set_auto_update_event].
  repeat rewrite filter_app. repeat rewrite length_app.
  cbn [filter List.length String.eqb Ascii.eqb Bool.eqb].
  now rewrite !Nat.add_0_r.
Qed.

Lemma step_keeps_interval_ok s ev :
  interval_ok s -> interval_ok (fst (step s ev)).
Proof.
  unfold interval_ok. destruct s as [w t]. cbn [state scheduler].
  intros [Hint Hwait].
  destruct ev as [|src|r src|]; cbn [step fst state scheduler].
  - split; [assumption|].
    destruct t; cbn [tick]; [exact I| |exact I].
    destruct Hwait. split; lia.
  - unfold periodic_update. cbn [state scheduler].
    destruct t as [|timeout elapsed|].
    + destruct (stop_event w); cbn [state scheduler].
      * now split.
      * destruct (Blacklist.fetch_blacklist _ _);
          cbn [auto_update_interval print with_ledger];
          (split; [assumption|split; [assumption|lia]]).
    + destruct (stop_event w); cbn [state scheduler]; [now split|].
      destruct (timeout <=? elapsed); cbn [state scheduler]; now split.
    + now split.
  - pose proof (handle_keeps_interval src w r Hint) as H.
    destruct (handle src w r) as [w' out]. cbn [fst state scheduler] in *.
    now split.
  - now split.
Qed.

Lemma run_keeps_interval_ok evs : forall s,
  interval_ok s -> interval_ok (fst (run s evs)).
Proof.
  induction evs as [|ev evs IH]; intros s Hs; [exact Hs|].
  rewrite run_cons_fst. apply IH. now apply step_keeps_interval_ok.
Qed.

(** X7. From start, through any interleaving of requests, scheduling,
    seconds and SIGINT, [auto_update_interval] stays at least 1 and a wait
    in progress has a timeout of at least 1. *)
Theorem interval_never_below_one l evs :
  interval_ok (fst (run (boot l) evs)).
Proof.
  apply run_keeps_interval_ok. unfold interval_ok, boot, initial.
  cbn [state scheduler auto_update_interval]. split; [lia|exact I].
Qed.

(** One event on a thread that has left the loop. *)
Lemma step_stopped s ev :
  scheduler s = Stopped ->
  scheduler (fst (step s ev)) = Stopped
  /\ refreshes (state (fst (step s ev))) = refreshes (state s).
Proof.
  intros Hs. destruct ev as [|src|r src|]; cbn [step fst].
  - cbn [state scheduler]. now rewrite Hs.
  - unfold periodic_update. rewrite Hs. now split.
  - pose proof (handle_refreshes src (state s) r) as H.
    destruct (handle src (state s) r) as [w out].
    cbn [fst state scheduler] in *. now split.
  - cbn [state scheduler]. split; [assumption|apply signal_handler_refreshes].
Qed.

(** X8. [Stopped] is final: once the refresh thread has left its loop, no
    request, scheduling, passing of time or signal brings it back, and no
    further refresh is started. *)
Theorem stopped_is_final s evs :
  scheduler s = Stopped ->
  scheduler (fst (run s evs)) = Stopped
  /\ refreshes (state (fst (run s evs))) = refreshes (state s).
Proof.
  revert s. induction evs as [|ev evs IH]; intros s Hs; [now split|].
  rewrite run_cons_fst.
  destruct (step_stopped s ev Hs) as [Hs1 Hr1].
  destruct (IH _ Hs1) as [Hs2 Hr2]. split; [assumption|congruence].
Qed.

(** One event once [stop_event] is set. *)
Lemma step_after_stop s ev :
  stop_event (state s) = true ->
  stop_event (state (fst (step s ev))) = true
  /\ refreshes (state (fst (step s ev))) = refreshes (state s)
  /\ (scheduler s = Stopped -> scheduler (fst (step s ev)) = Stopped)
  /\ (forall src, ev = Schedule src -> scheduler (fst (step s ev)) = Stopped).
Proof.
  destruct s as [w t]. cbn [state scheduler]. intros Hstop.
  destruct ev as [|src|r src|]; cbn [step fst state scheduler].
  - repeat split; intros; subst; try assumption; try reflexivity;
      discriminate.
  - unfold periodic_update. cbn [state scheduler].
    destruct t; rewrite ?Hstop; cbn [state scheduler];
      repeat split; intros; try assumption; try reflexivity; discriminate.
  - pose proof (handle_refreshes src w r) as Hr.
    pose proof (handle_stop_event src w r) as Hk.
    destruct (handle src w r) as [w' out].
    cbn [fst state scheduler] in *.
    repeat split; intros; congruence.
  - repeat split; intros; try assumption; try reflexivity;
      try discriminate.
    apply signal_handler_refreshes.
Qed.

Lemma run_after_stop evs : forall s,
  stop_event (state s) = true ->
  stop_event (state (fst (run s evs))) = true
  /\ refreshes (state (fst (run s evs))) = refreshes (state s)
  /\ (scheduler s = Stopped -> scheduler (fst (run s evs)) = Stopped).
Proof.
  induction evs as [|ev evs IH]; intros s Hstop; [now repeat split|].
  rewrite run_cons_fst.
  destruct (step_after_stop s ev Hstop) as (H1 & H2 & H3 & _).
  destruct (IH _ H1) as (H4 & H5 & H6).
  repeat split; [assumption|congruence|auto].
Qed.

(** X9. After SIGINT the refresh thread stops the next time it is
    scheduled, wherever it was (also in the middle of a wait), it stays
    stopped, and whatever else happens no refresh is started any more. *)
Theorem sigint_ends_refreshing s evs1 src evs2 :
  let s' := fst (run s (Sigint :: evs1 ++ Schedule src :: evs2)) in
  scheduler s' = Stopped
  /\ stop_event (state s') = true
  /\ refreshes (state s') = refreshes (state s).
Proof.
  cbv zeta. rewrite run_cons_fst.
  set (s0 := fst (step s Sigint)).
  assert (Hstop0 : stop_event (state s0) = true) by reflexivity.
  assert (Hr0 : refreshes (state s0) = refreshes (state s))
    by apply signal_handler_refreshes.
  rewrite run_app.
  destruct (run s0 evs1) as [s1 out1] eqn:Hrun1.
  assert (Hs1 : s1 = fst (run s0 evs1)) by now rewrite Hrun1.
  destruct (run_after_stop evs1 s0 Hstop0) as (Hstop1 & Hr1 & _).
  rewrite <- Hs1 in Hstop1, Hr1.
  destruct (run s1 (Schedule src :: evs2)) as [s2 out2] eqn:Hrun2.
  cbn [fst].
  assert (Hs2 : s2 = fst (run s1 (Schedule src :: evs2))) by now rewrite Hrun2.
  rewrite run_cons_fst in Hs2.
  destruct (step_after_stop s1 (Schedule src) Hstop1) as (Hstop & Hr & _ & Hsch).
  destruct (run_after_stop evs2 _ Hstop) as (Hstop2 & Hr2 & Hsch2).
  rewrite <- Hs2 in Hstop2, Hr2, Hsch2.
  split; [apply Hsch2; now apply (Hsch src)|].
  split; [assumption|congruence].
Qed.

(** X10. A wait is not cut short: as long as SIGINT does not arrive and
    fewer seconds pass than the wait has left, requests (a change of the
    interval among them) and scheduling leave the thread in that wait,
    with the timeout it started with, and no refresh is started. *)
Theorem wait_is_not_cut_short evs : forall s timeout elapsed,
  scheduler s = Waiting timeout elapsed ->
  stop_event (state s) = false ->
  undisturbed evs = true ->
  elapsed + ticks evs < timeout ->
  scheduler (fst (run s evs)) = Waiting timeout (elapsed + ticks evs)
  /\ refreshes (state (fst (run s evs))) = refreshes (state s).
Proof.
  induction evs as [|ev evs IH]; intros s timeout elapsed Hs Hstop Hund Hlt.
  - cbn [run fst ticks]. rewrite Z.add_0_r. now split.
  - rewrite run_cons_fst. pose proof (Z.le_refl 0) as H0.
    assert (Hticks : 0 <= ticks evs).
    { clear. induction evs as [|[| | |] evs IH]; cbn [ticks]; lia. }
    destruct ev as [|src|r src|]; cbn [undisturbed ticks] in Hund, Hlt |- *;
      [| | |discriminate].
    + destruct (IH (fst (step s Tick)) timeout (elapsed + 1)) as [H1 H2];
        cbn [step fst state scheduler]; try assumption; try lia.
      * now rewrite Hs.
      * cbn [step fst state scheduler] in H1, H2.
        split; [rewrite H1; f_equal; lia|assumption].
    + assert (Hsame : fst (step s (Schedule src)) = s).
      { cbn [step fst]. destruct s as [w t]. cbn [scheduler state] in *.
        subst t. apply wait_blocks; [assumption|lia]. }
      rewrite Hsame. now apply IH.
    + pose proof (handle_refreshes src (state s) r) as Hr.
      pose proof (handle_stop_event src (state s) r) as Hk.
      pose proof (step_http_scheduler s r src) as Hsch.
      destruct (IH (fst (step s (Http r src))) timeout elapsed) as [H1 H2];
        try assumption.
      * now rewrite Hsch.
      * cbn [step]. destruct (handle src (state s) r). cbn [fst state] in *.
        congruence.
      * split; [assumption|].
        rewrite H2. cbn [step]. destruct (handle src (state s) r).
        cbn [fst state] in *. assumption.
Qed.


(* ===================================================================== *)
(** ** The target of a DELETE                                             *)
(* ===================================================================== *)

Lemma list_ascii_of_string_app t1 t2 :
  list_ascii_of_string (t1 ++ t2)
  = list_ascii_of_string t1 ++ list_ascii_of_string t2.
Proof.
  induction t1 as [|a t1 IH]; cbn [String.append list_ascii_of_string app];
    [reflexivity|now rewrite IH].
Qed.

Lemma before_cut c l m :
  forallb (fun x => negb (Ascii.eqb x c)) l = true ->
  before c (l ++ c :: m) = l.
Proof.
  induction l as [|x l IH]; cbn [forallb before app].
  - now rewrite Ascii.eqb_refl.
  - intros H. apply andb_true_iff in H. destruct H as [Hx Hl].
    apply negb_true_iff in Hx. rewrite Hx. now rewrite IH.
Qed.

Lemma before_app c l m :
  forallb (fun x => negb (Ascii.eqb x c)) l = true ->
  before c (l ++ m) = l ++ before c m.
Proof.
  induction l as [|x l IH]; cbn [forallb before app]; [reflexivity|].
  intros H. apply andb_true_iff in H. destruct H as [Hx Hl].
  apply negb_true_iff in Hx. rewrite Hx. now rewrite IH.
Qed.

(** The query and the fragment are not part of the path. *)
Lemma urlparse_path_cut target sep rest :
  sep = "?"%char \/ sep = "#"%char ->
  free_of "?" target = true ->
  free_of "#" target = true ->
  urlparse_path (target ++ String sep rest) = urlparse_path target.
Proof.
  unfold free_of, urlparse_path. intros Hsep Hq Hh.
  rewrite list_ascii_of_string_app. cbn [list_ascii_of_string].
  rewrite (before_absent "#" _ Hh), (before_absent "?" _ Hq).
  destruct Hsep as [-> | ->].
  - rewrite (before_app "#" _ _ Hh). cbn [before Ascii.eqb Bool.eqb].
    now rewrite (before_cut "?" _ _ Hq).
  - rewrite (before_cut "#" _ _ Hh). now rewrite (before_absent "?" _ Hq).
Qed.

(** X12. [do_DELETE] looks at the path of the target only: a query string
    or a fragment added to the target changes neither the answer nor the
    effect (GET and POST, which compare the raw target, answer 404
    then). *)
Theorem delete_ignores_query src w r sep rest :
  command r = DELETE ->
  sep = "?"%char \/ sep = "#"%char ->
  free_of "?" (path r) = true ->
  free_of "#" (path r) = true ->
  handle src w (with_path (path r ++ String sep rest) r) = handle src w r.
Proof.
  intros Hcmd Hsep Hq Hh. unfold handle; cbv zeta.
  cbn [command with_path]. rewrite Hcmd. unfold do_DELETE.
  cbn [req new_handler path with_path]. unfold path_parts.
  now rewrite (urlparse_path_cut _ _ _ Hsep Hq Hh).
Qed.

(* ===================================================================== *)
(** ** The port of [main]                                                 *)
(* ===================================================================== *)



(* ===================================================================== *)
(** ** The further properties at concrete inputs                          *)
(* ===================================================================== *)

(** [access_denied_iff_listed]: the listed 6.6.6.6 asks to clear the
    ledger. *)
Lemma access_denied_iff_listed_witness :
  let w := initial one_attacker in
  let r := post "/blacklist/clear" "6.6.6.6" NoData in
  ip_set (Blacklist.get_blacklist (ledger w)) = Ok [JString "6.6.6.6"]
  /\ snd (handle Blacklist.Unavailable w r) = Reply access_denied
  /\ fst (handle Blacklist.Unavailable w r) = w.
Proof.
  cbv zeta. split; [reflexivity|].
  destruct (access_denied_iff_listed Blacklist.Unavailable
              (initial one_attacker)
              (post "/blacklist/clear" "6.6.6.6" NoData)
              [JString "6.6.6.6"] ltac:(discriminate) eq_refl)
    as [Hiff Hsame].
  assert (Hdenied : snd (handle Blacklist.Unavailable (initial one_attacker)
                                (post "/blacklist/clear" "6.6.6.6" NoData))
                    = Reply access_denied).
  { apply Hiff.
    exists [("ip", JString "6.6.6.6"); ("attack_type", JString "DoS");
            ("index", JInt 0)].
    split; [now left|reflexivity]. }
  split; [exact Hdenied|exact (Hsame Hdenied)].
Defined.

(** [ip_set_fails_on_unhashable_only]: a read whose second [ip] is a
    list. *)
Lemma ip_set_fails_on_unhashable_only_witness :
  ip_set unhashable_read = Raise TypeError
  /\ exists attack v, In attack unhashable_read
                      /\ dict_lookup "ip" attack = Some v
                      /\ hashable v = false.
Proof.
  split; [reflexivity|].
  exact (proj2 (ip_set_fails_on_unhashable_only unhashable_read TypeError
                  eq_refl)).
Defined.

(** [get_changes_nothing]: listing the blacklist. *)
Lemma get_changes_nothing_witness :
  fst (handle Blacklist.Unavailable (initial one_attacker)
              (get_from "/blacklist" "10.0.0.7"))
  = initial one_attacker.
Proof.
  exact (get_changes_nothing Blacklist.Unavailable (initial one_attacker)
           (get_from "/blacklist" "10.0.0.7") eq_refl).
Defined.




(** [stopped_is_final]: a stopped thread is scheduled again. *)
Lemma stopped_is_final_witness :
  let s := {| state := set_stop_event (initial []); scheduler := Stopped |} in
  let evs := [Tick; Schedule (Blacklist.Fetched one_attacker); Sigint;
              Schedule Blacklist.Unavailable] in
  scheduler (fst (run s evs)) = Stopped
  /\ refreshes (state (fst (run s evs))) = refreshes (state s).
Proof.
  exact (stopped_is_final
           {| state := set_stop_event (initial []); scheduler := Stopped |}
           [Tick; Schedule (Blacklist.Fetched one_attacker); Sigint;
            Schedule Blacklist.Unavailable] eq_refl).
Defined.

(** [wait_is_not_cut_short]: two seconds and a change of the interval
    during a 30 s wait. *)
Lemma wait_is_not_cut_short_witness :
  let s := {| state := initial []; scheduler := Waiting 30 0 |} in
  let evs := [Tick;
              Http (post "/blacklist/set-interval" "10.0.0.7"
                         (interval_body (JInt 1))) Blacklist.Unavailable;
              Schedule (Blacklist.Fetched []); Tick;
              Schedule (Blacklist.Fetched [])] in
  scheduler (fst (run s evs)) = Waiting 30 2
  /\ refreshes (state (fst (run s evs))) = refreshes (state s).
Proof.
  exact (wait_is_not_cut_short
           [Tick;
            Http (post "/blacklist/set-interval" "10.0.0.7"
                       (interval_body (JInt 1))) Blacklist.Unavailable;
            Schedule (Blacklist.Fetched []); Tick;
            Schedule (Blacklist.Fetched [])]
           {| state := initial []; scheduler := Waiting 30 0 |} 30 0
           eq_refl eq_refl eq_refl eq_refl).
Defined.


(** [delete_ignores_query]: a query string after the index. *)
Lemma delete_ignores_query_witness :
  handle Blacklist.Unavailable (initial one_attacker)
         (delete_from "/blacklist/delete/0?force=1" "10.0.0.7")
  = handle Blacklist.Unavailable (initial one_attacker)
           (delete_from "/blacklist/delete/0" "10.0.0.7").
Proof.
  exact (delete_ignores_query Blacklist.Unavailable (initial one_attacker)
           (delete_from "/blacklist/delete/0" "10.0.0.7") "?" "force=1"
           eq_refl (or_introl eq_refl) eq_refl eq_refl).
Defined.

